(** * Lock-horizon reconstruction and liquidity ladder of polkadot-locks-report

    A shallow embedding of [src/main.rs].

    Modelling conventions:
    - instants ([DateTime<Utc>]) are [Z] nanoseconds since the Unix epoch,
      durations ([chrono::Duration]) are [Z] nanoseconds;
    - token amounts ([f64]) are exact rationals [Q]; the rounding of the
      [f64] division by 1e10 is not modelled;
    - [u32], [u128] and [i64] values are [Z]; a [u32] subtraction that
      underflows panics (Rust's overflow checks, as in a debug build);
    - [Utc::now()] is the explicit parameter [now]: the clock is read as one
      instant for the whole run;
    - the chain is an environment of storage reads; each read either
      yields a decoded value (or absence) or fails;
    - console output is a log of lines; only the [eprintln!] error lines
      are recorded. *)

From Stdlib Require Import ZArith QArith Qabs List Bool String Ascii Lia.
Import ListNotations.
Set Warnings "-register-all".
Open Scope Z_scope.

(** ** Outcomes and the writer/error monad of the run *)

(** [Box<dyn Error>] is a message; [Panic] is a Rust panic. *)
Inductive outcome (A : Type) : Type :=
| Ok (a : A)
| Err (e : string)
| Panic (msg : string).
Arguments Ok {A} a.
Arguments Err {A} e.
Arguments Panic {A} msg.

(** A computation yields its log lines and an outcome. *)
Definition M (A : Type) : Type := (list string * outcome A)%type.

Definition ret {A} (a : A) : M A := ([], Ok a).
Definition throw {A} (e : string) : M A := ([], Err e).
Definition panic {A} (msg : string) : M A := ([], Panic msg).
Definition log (line : string) : M unit := ([line], Ok tt).

Definition bind {A B} (m : M A) (f : A -> M B) : M B :=
  match m with
  | (l, Ok a) => let (l', r) := f a in (app l l', r)
  | (l, Err e) => (l, Err e)
  | (l, Panic p) => (l, Panic p)
  end.

Notation "x <- m ;; k" := (bind m (fun x => k))
  (at level 61, m at next level, right associativity).
Notation "m ;;; k" := (bind m (fun _ => k))
  (at level 61, right associativity).

Definition run_outcome {A} (m : M A) : outcome A := snd m.
Definition run_log {A} (m : M A) : list string := fst m.

(** ** Constants *)

Definition BASE_LOCK_PERIOD : Z := 28.
Definition MINUTES_PER_HOUR : Z := 60.
Definition HOURS_PER_DAY : Z := 24.
Definition SECONDS_PER_BLOCK : Z := 6.
Definition GENESIS_THRESHOLD : Z := 9000000.
Definition NANOS_PER_SEC : Z := 1000000000.
Definition SECS_PER_DAY : Z := 86400.

(** [PLANCKS_PER_DOT = 1e10] *)
Definition PLANCKS_PER_DOT : Q := inject_Z (10 ^ 10).

(** [f64::EPSILON = 2^-52] *)
Definition F64_EPSILON : Q := 1 # (2 ^ 52)%positive.

(** [Duration::seconds], [Duration::minutes] in nanoseconds. *)
Definition dur_seconds (s : Z) : Z := s * NANOS_PER_SEC.
Definition dur_minutes (m : Z) : Z := m * 60 * NANOS_PER_SEC.

(** [Duration::num_days]: [num_seconds() / 86400], both truncating
    toward zero. *)
Definition num_days (d : Z) : Z := Z.quot (Z.quot d NANOS_PER_SEC) SECS_PER_DAY.

(** [plancks as f64 / 1e10] *)
Definition plancks_to_dots (p : Z) : Q := inject_Z p / PLANCKS_PER_DOT.

Definition Qltb (x y : Q) : bool := negb (Qle_bool y x).

(** ** Conviction lock resolver *)

(** [get_conviction_multiplier]: [1 << conviction] on 0..=6, a panic
    otherwise. *)
Definition get_conviction_multiplier (conviction : Z) : M Z :=
  if (0 <=? conviction) && (conviction <=? 6)
  then ret (Z.shiftl 1 conviction)
  else panic "Unknown conviction value".

(** [current_block - base_block] on [u32]. *)
Definition sub_u32 (a b : Z) : M Z :=
  if b <=? a then ret (a - b) else panic "attempt to subtract with overflow".

(** [calculate_end_datetime base_block current_block conviction]; the
    returned pair is [(current_block_datetime, end_datetime)]. *)
Definition calculate_end_datetime (now base_block current_block conviction : Z)
  : M (Z * Z) :=
  let current_block_datetime := now in
  block_diff <- sub_u32 current_block base_block ;;
  let time_diff := dur_seconds (block_diff * SECONDS_PER_BLOCK) in
  let base_block_datetime := current_block_datetime - time_diff in
  conviction_multiplier <- get_conviction_multiplier conviction ;;
  let lock_period_in_minutes :=
    BASE_LOCK_PERIOD * conviction_multiplier * HOURS_PER_DAY * MINUTES_PER_HOUR in
  let end_datetime := base_block_datetime + dur_minutes lock_period_in_minutes in
  ret (current_block_datetime, end_datetime).

Record LockedInterval : Type := {
  start_date : Z;
  end_date : Z;
  amount : Q
}.

(** ** Bucketing engine *)

Inductive Category : Type :=
| Locked0 | Locked1_7 | Locked8_14 | Locked15_28 | Locked29_60 | Locked60plus.

Definition category_eqb (a b : Category) : bool :=
  match a, b with
  | Locked0, Locked0 | Locked1_7, Locked1_7 | Locked8_14, Locked8_14
  | Locked15_28, Locked15_28 | Locked29_60, Locked29_60
  | Locked60plus, Locked60plus => true
  | _, _ => false
  end.

Definition category_name (c : Category) : string :=
  match c with
  | Locked0 => "Locked 0 Days"
  | Locked1_7 => "Locked 1-7 Days"
  | Locked8_14 => "Locked 8-14 Days"
  | Locked15_28 => "Locked 15-28 Days"
  | Locked29_60 => "Locked 29-60 Days"
  | Locked60plus => "Locked 60+ Days"
  end.

(** [categorize_lock_period end_date], against [Utc::now()]. *)
Definition categorize_lock_period (now end_date : Z) : Category :=
  let d := num_days (end_date - now) in
  if d <=? 0 then Locked0
  else if (1 <=? d) && (d <=? 7) then Locked1_7
  else if (8 <=? d) && (d <=? 14) then Locked8_14
  else if (15 <=? d) && (d <=? 28) then Locked15_28
  else if (29 <=? d) && (d <=? 60) then Locked29_60
  else Locked60plus.

(** ** JSON values ([serde_json::Value]); [()] serialises to [JNull]. *)

Inductive json : Type :=
| JNull
| JStr (s : string)
| JArr (l : list json)
| JObj (kvs : list (string * json)).

(** [format!("{:.10}", x)]: round half to even at the tenth decimal. *)
Definition round_half_even (n d : Z) : Z :=
  let q := n / d in
  let r := n mod d in
  if 2 * r <? d then q
  else if d <? 2 * r then q + 1
  else if Z.even q then q else q + 1.

Fixpoint digits_rev (fuel : nat) (n : Z) : list ascii :=
  match fuel with
  | O => []
  | S f =>
      let c := ascii_of_nat (48 + Z.to_nat (n mod 10)) in
      if n <? 10 then [c] else c :: digits_rev f (n / 10)
  end.

Definition z_to_decimal (n : Z) : string :=
  string_of_list_ascii (rev (digits_rev (S (Z.to_nat (Z.log2_up (n + 1)))) n)).

Definition pad10 (s : string) : string :=
  append (string_of_list_ascii (repeat "0"%char (10 - String.length s))) s.

Definition format_10 (x : Q) : string :=
  let sign := if Qnum x <? 0 then "-"%string else EmptyString in
  let r := round_half_even (Z.abs (Qnum x) * 10 ^ 10) (Zpos (Qden x)) in
  (sign ++ z_to_decimal (r / 10 ^ 10) ++ "." ++ pad10 (z_to_decimal (r mod 10 ^ 10)))%string.

(** ** [display_liquidity_ladder] *)

(** [categorized_amounts : HashMap<&str, (f64, DateTime<Utc>)>] *)
Definition Buckets : Type := Category -> option (Q * Z).

Definition buckets_empty : Buckets := fun _ => None.

Definition buckets_insert (m : Buckets) (c : Category) (v : Q * Z) : Buckets :=
  fun c' => if category_eqb c c' then Some v else m c'.

(** One iteration of the first loop: [entry(category).or_default()]
    (default [(0.0, DateTime::default())], the epoch), replaced by the
    interval when it is larger, or equal within [f64::EPSILON] and later. *)
Definition bucket_step (now : Z) (m : Buckets) (iv : LockedInterval) : Buckets :=
  let category := categorize_lock_period now (end_date iv) in
  let entry := match m category with Some e => e | None => (0%Q, 0) end in
  if Qltb (fst entry) (amount iv)
     || (Qltb (Qabs (amount iv - fst entry)) F64_EPSILON && (snd entry <? end_date iv))
  then buckets_insert m category (amount iv, end_date iv)
  else buckets_insert m category entry.

Definition categorize_all (now : Z) (ivs : list LockedInterval) : Buckets :=
  fold_left (bucket_step now) ivs buckets_empty.

Definition lock_order : list Category :=
  [Locked0; Locked1_7; Locked8_14; Locked15_28; Locked29_60; Locked60plus].

Definition class_of (c : Category) : string :=
  match category_name c with
  | "Locked 0 Days" => "locked-0-days"
  | "Locked 1-7 Days" => "locked-1-7-days"
  | "Locked 8-14 Days" => "locked-8-14-days"
  | "Locked 15-28 Days" => "locked-15-28-days"
  | "Locked 29-60 Days" => "locked-29-60-days"
  | _ => "locked-60-plus-days"
  end%string.

Definition present_entry (c : Category) (a : Q) : json :=
  JObj [("lock_category"%string, JStr (category_name c));
        ("amount"%string, JStr (format_10 a));
        ("class"%string, JStr (class_of c))].

Definition none_entry (c : Category) : json :=
  JObj [("lock_category"%string, JStr (category_name c));
        ("amount"%string, JStr "none");
        ("class"%string, JStr "none")].

(** The second loop, over [lock_order.iter().rev()], threading
    [max_lock_amount] and pushing onto [account_data]. *)
Fixpoint ladder_walk (m : Buckets) (cats : list Category) (max_lock_amount : Q)
  : list json :=
  match cats with
  | [] => []
  | c :: cs =>
      match m c with
      | Some (a, _) =>
          let max' := if Qltb max_lock_amount a then a else max_lock_amount in
          present_entry c a :: ladder_walk m cs max'
      | None => none_entry c :: ladder_walk m cs max_lock_amount
      end
  end.

Definition ladder_entries (now : Z) (ivs : list LockedInterval) : list json :=
  ladder_walk (categorize_all now ivs) (rev lock_order) 0%Q.

Definition display_liquidity_ladder (now : Z) (ivs : list LockedInterval) : M json :=
  ret (JObj [("locks"%string, JArr (ladder_entries now ivs))]).

(** The inter-bucket dominance walk in the words of the spec (section 4.4),
    from [60+d] down to [0d]; [None] is an absent bucket. Compared with
    [ladder_walk] above. *)
Fixpoint dominance_walk_spec (m : Buckets) (cats : list Category) (max_seen : Q)
  : list (Category * option Q) :=
  match cats with
  | [] => []
  | c :: cs =>
      match m c with
      | Some (a, _) =>
          if Qltb max_seen a then (c, Some a) :: dominance_walk_spec m cs a
          else (c, None) :: dominance_walk_spec m cs max_seen
      | None => (c, None) :: dominance_walk_spec m cs max_seen
      end
  end.

(** Reading a ladder entry back as [(bucket, amount | absent)]. *)
Definition entry_amount (j : json) : option string :=
  match j with
  | JObj [(_, _); ("amount"%string, JStr s); (_, _)] =>
      if String.eqb s "none" then None else Some s
  | _ => None
  end.

(** ** Chain state: the storage items read by the program *)

(** A storage read: [at_latest().await?] may fail (propagated silently),
    [fetch(..).await] may fail (logged, then propagated), or it yields a
    decoded value or absence. *)
Inductive read (A : Type) : Type :=
| ReadOk (v : option A)
| AtLatestErr (e : string)
| FetchErr (e : string).
Arguments ReadOk {A} v.
Arguments AtLatestErr {A} e.
Arguments FetchErr {A} e.

Inductive ReferendumInfo : Type :=
| Ongoing (submitted : Z)
| Approved (block_number : Z)
| Rejected (block_number : Z)
| Cancelled (block_number : Z)
| TimedOut (block_number : Z)
| Killed (block_number : Z).

(** [vote] is the [Vote] byte: bit 7 aye/nay, low bits conviction. *)
Inductive AccountVote : Type :=
| Standard (vote : Z) (balance : Z)
| Split (aye nay : Z)
| SplitAbstain (aye nay abstain : Z).

Inductive Voting : Type :=
| Casting (votes : list (Z * AccountVote))
| Delegating.

Record BalanceLock : Type := {
  lock_id : string;
  lock_amount : Z
}.

Record VestingInfo : Type := {
  locked : Z;
  per_block : Z;
  starting_block : Z
}.

Abbreviation AccountId32 := string (only parsing).

Record Chain : Type := {
  parse_account : string -> option AccountId32;
  balances_account : AccountId32 -> read unit;
  balances_locks : AccountId32 -> read (list BalanceLock);
  class_locks_for : AccountId32 -> read (list (Z * Z));
  voting_for : AccountId32 -> Z -> read Voting;
  referendum_info_for : Z -> read ReferendumInfo;
  vesting_of : AccountId32 -> read (list VestingInfo);
  (** [subscribe_finalized().await?] then [blocks_sub.next().await]:
      an error, the end of the stream, or the head's number. *)
  finalized_head : outcome (option Z)
}.

Section Run.

Variable chain : Chain.
(** [Utc::now()] *)
Variable now : Z.

(** The body shared by the [fetch_*] functions. *)
Definition fetch {A} (what : string) (r : read A) : M (option A) :=
  match r with
  | ReadOk v => ret v
  | AtLatestErr e => throw e
  | FetchErr e => log ("[Error] Fetching failed for " ++ what ++ ": " ++ e) ;;; throw e
  end.

Definition fetch_account_balance (key : AccountId32) : M (option unit) :=
  fetch "account balance" (balances_account chain key).
Definition fetch_account_locks (key : AccountId32) : M (option (list BalanceLock)) :=
  fetch "conviction votes" (balances_locks chain key).
Definition fetch_voting (key : AccountId32) (lock_class : Z) : M (option Voting) :=
  fetch "conviction votes" (voting_for chain key lock_class).
Definition fetch_class_locks (key : AccountId32) : M (option (list (Z * Z))) :=
  fetch "class locks" (class_locks_for chain key).
Definition fetch_referendum_info (ref_num : Z) : M (option ReferendumInfo) :=
  fetch "referenda" (referendum_info_for chain ref_num).
Definition fetch_vesting (key : AccountId32) : M (option (list VestingInfo)) :=
  fetch "vesting" (vesting_of chain key).

Definition fetch_current_block_number : M Z :=
  match finalized_head chain with
  | Ok (Some n) => ret n
  | Ok None => throw "Failed to fetch block."
  | Err e => throw e
  | Panic p => panic p
  end.

(** The [block_number] match of [process_casting_votes]. *)
Definition reference_block (ref_data : option ReferendumInfo) : Z :=
  match ref_data with
  | Some (Ongoing submitted) => submitted
  | Some (Approved b) | Some (Rejected b) | Some (Killed b)
  | Some (Cancelled b) | Some (TimedOut b) => b
  | None => 0
  end.

(** [update_lock_dates]: push onto [locked_intervals]. *)
Definition update_lock_dates (locked_intervals : list LockedInterval)
  (start end_ : Z) (a : Q) : list LockedInterval :=
  locked_intervals ++ [{| start_date := start; end_date := end_; amount := a |}].

Fixpoint process_casting_votes (current_block_number : Z)
  (votes : list (Z * AccountVote)) (locked_intervals : list LockedInterval)
  : M (list LockedInterval) :=
  match votes with
  | [] => ret locked_intervals
  | (ref_num, vote_detail) :: rest =>
      ref_data <- fetch_referendum_info ref_num ;;
      let block_number := reference_block ref_data in
      locked_intervals' <-
        (if negb (block_number =? 0) then
           match vote_detail with
           | Standard vote balance =>
               let conviction := vote mod 128 in
               dates <- calculate_end_datetime now block_number current_block_number conviction ;;
               let locked_amount_in_dot := plancks_to_dots balance in
               ret (update_lock_dates locked_intervals (fst dates) (snd dates)
                      locked_amount_in_dot)
           | _ => ret locked_intervals
           end
         else ret locked_intervals) ;;
      process_casting_votes current_block_number rest locked_intervals'
  end.

Fixpoint process_class_locks_from (key : AccountId32) (class_locks : list (Z * Z))
  (current_block_number : Z) (locked_intervals : list LockedInterval)
  : M (list LockedInterval) :=
  match class_locks with
  | [] => ret locked_intervals
  | class_lock :: rest =>
      votes_data <- fetch_voting key (fst class_lock) ;;
      locked_intervals' <-
        match votes_data with
        | Some (Casting votes) =>
            process_casting_votes current_block_number votes locked_intervals
        | _ => ret locked_intervals
        end ;;
      process_class_locks_from key rest current_block_number locked_intervals'
  end.

Definition process_class_locks (key : AccountId32) (class_locks : list (Z * Z))
  (current_block_number : Z) : M (list LockedInterval) :=
  process_class_locks_from key class_locks current_block_number [].

(** [display_lock_totals]: the locks are only printed; returns [()]. *)
Definition display_lock_totals (key : AccountId32) : M unit :=
  locks_data <- fetch_account_locks key ;;
  ret tt.

(** 2020-05-26T15:36:18Z and 2023-08-25T13:01:00Z, in Unix seconds. *)
Definition GENESIS_BLOCK1_EPOCH : Z := 1590507378.
Definition LATER_EPOCH : Z := 1692968460.

Definition calculate_vesting_datetimes (starting_block total_blocks_until_vested
  current_block : Z) : Z * Z :=
  let base_datetime :=
    if starting_block <? GENESIS_THRESHOLD
    then dur_seconds GENESIS_BLOCK1_EPOCH
    else dur_seconds LATER_EPOCH in
  let minutes_diff_start := Z.quot (starting_block * SECONDS_PER_BLOCK) MINUTES_PER_HOUR in
  let start_datetime := base_datetime + dur_minutes minutes_diff_start in
  let minutes_diff_end :=
    Z.quot (total_blocks_until_vested * SECONDS_PER_BLOCK) MINUTES_PER_HOUR in
  let end_datetime := start_datetime + dur_minutes minutes_diff_end in
  (start_datetime, end_datetime).

(** [u128] division: a panic on a zero divisor. *)
Definition div_u128 (a b : Z) : M Z :=
  if b =? 0 then panic "attempt to divide by zero" else ret (a / b).

(** [x as u32] *)
Definition as_u32 (x : Z) : Z := x mod 2 ^ 32.

(** The body of the loop of [display_vesting_info]: the printed
    [(start_date, end_date, locked_in_dot, per_block_in_dot)]. *)
Definition vesting_schedule (current_block_number : Z) (vesting_info : VestingInfo)
  : M (Z * Z * Q * Q) :=
  total_blocks_until_vested <- div_u128 (locked vesting_info) (per_block vesting_info) ;;
  let dates := calculate_vesting_datetimes (starting_block vesting_info)
                 (as_u32 total_blocks_until_vested) current_block_number in
  let locked_in_dot := plancks_to_dots (locked vesting_info) in
  let per_block_in_dot := plancks_to_dots (per_block vesting_info) in
  ret (fst dates, snd dates, locked_in_dot, per_block_in_dot).

Fixpoint vesting_loop (current_block_number : Z) (infos : list VestingInfo) : M unit :=
  match infos with
  | [] => ret tt
  | v :: rest =>
      _printed <- vesting_schedule current_block_number v ;;
      vesting_loop current_block_number rest
  end.

(** [display_vesting_info]: the schedules are only printed; returns [()]. *)
Definition display_vesting_info (key : AccountId32) : M unit :=
  vesting_data_opt <- fetch_vesting key ;;
  match vesting_data_opt with
  | Some vesting_data =>
      match finalized_head chain with
      | Ok (Some current_block_number) => vesting_loop current_block_number vesting_data
      | Ok None => ret tt
      | Err e => throw e
      | Panic p => panic p
      end
  | None => ret tt
  end.

(** [serde_json] serialisation of [()]. *)
Definition unit_json (u : unit) : json := JNull.

Definition gather_and_cross_reference (key : AccountId32) : M json :=
  class_locks_opt <- fetch_class_locks key ;;
  liquidity_data <-
    match class_locks_opt with
    | Some class_locks =>
        current_block_number <- fetch_current_block_number ;;
        locked_intervals <- process_class_locks key class_locks current_block_number ;;
        display_liquidity_ladder now locked_intervals
    | None => ret (JObj [])
    end ;;
  lock_totals_data <- display_lock_totals key ;;
  vesting_data <- display_vesting_info key ;;
  ret (JObj [("liquidity"%string, liquidity_data);
             ("locks"%string, unit_json lock_totals_data);
             ("vesting"%string, unit_json vesting_data)]).

(** [if let Err(e) = m { eprintln!("{prefix}{e}") }] *)
Definition log_if_err {A} (prefix : string) (m : M A) : M unit :=
  match m with
  | (l, Ok _) => (l, Ok tt)
  | (l, Err e) => (app l [append prefix e], Ok tt)
  | (l, Panic p) => (l, Panic p)
  end.

Definition process_address (address : string) : M json :=
  match parse_account chain address with
  | None => throw "invalid ss58 address"
  | Some public_key_bytes =>
      log_if_err "[Error] Failed to fetch balance: " (fetch_account_balance public_key_bytes) ;;;
      log_if_err "[Error] Failed to fetch locked balance: " (fetch_account_locks public_key_bytes) ;;;
      xr_data <- gather_and_cross_reference public_key_bytes ;;
      ret (JObj [("address"%string, JStr address); ("data"%string, xr_data)])
  end.

(** The loop of [main]: [process_address(..).await?], pushed onto
    [all_data["accounts"]]. *)
Fixpoint process_addresses (addresses : list string) (accounts : list json) : M (list json) :=
  match addresses with
  | [] => ret accounts
  | address :: rest =>
      data <- process_address address ;;
      process_addresses rest (accounts ++ [data])
  end.

(** [main] after the connection and the reading of the address list: the
    document handed to [generate_html_for_all_addresses]; [date] is the
    formatted [Utc::now()]. *)
Definition main_document (date : string) (addresses : list string) : M json :=
  accounts <- process_addresses addresses [] ;;
  ret (JObj [("date"%string, JStr date); ("accounts"%string, JArr accounts)]).

End Run.

(** ** Address input *)

(** [char::is_whitespace] on ASCII: tab, line feed, vertical tab, form
    feed, carriage return and space. *)
Definition is_whitespace (c : ascii) : bool :=
  let n := nat_of_ascii c in Nat.eqb n 32 || (Nat.leb 9 n && Nat.leb n 13).

(** [s.trim().is_empty()] *)
Definition is_blank (s : string) : bool := forallb is_whitespace (list_ascii_of_string s).

(** A line ending in ["\r\n"] loses its ["\r"]; the pending line is kept
    reversed. *)
Definition strip_cr (pending : list ascii) : list ascii :=
  match pending with
  | c :: t => if Ascii.eqb c "013"%char then t else pending
  | [] => []
  end.

(** [str::lines]: split after each ["\n"], dropping the line ending; a
    final line without ["\n"] is kept, an empty one is not produced. *)
Fixpoint lines_acc (pending : list ascii) (s : string) : list string :=
  match s with
  | EmptyString =>
      match pending with
      | [] => []
      | _ => [string_of_list_ascii (rev pending)]
      end
  | String c rest =>
      if Ascii.eqb c "010"%char
      then string_of_list_ascii (rev (strip_cr pending)) :: lines_acc [] rest
      else lines_acc (c :: pending) rest
  end.

Definition lines (s : string) : list string := lines_acc [] s.

(** The address list of [read_addresses_from_input], from the dialog's
    text: [user_input.lines().filter(|s| !s.trim().is_empty())]. *)
Definition read_addresses (user_input : string) : list string :=
  filter (fun s => negb (is_blank s)) (lines user_input).

(** Lines typed one after the other, each ended by ["\n"]. *)
Definition typed_lines (ls : list string) : string :=
  fold_right (fun l s => (l ++ String "010"%char s)%string) EmptyString ls.

(** ** Bucketing in the words of the spec (section 4.4) *)

(** [floor((end_at - T_now) in days)] *)
Definition floor_days (x : Z) : Z := x / (SECS_PER_DAY * NANOS_PER_SEC).

(** One ladder entry as the code renders a bucket. *)
Definition ladder_entry (m : Buckets) (c : Category) : json :=
  match m c with
  | Some (a, _) => present_entry c a
  | None => none_entry c
  end.

(** ** Concrete chain states *)

Definition DOT : Z := 10 ^ 10.
Definition HEAD : Z := 20000000.

Definition quiet_chain : Chain := {|
  parse_account := fun s => Some s;
  balances_account := fun _ => ReadOk None;
  balances_locks := fun _ => ReadOk None;
  class_locks_for := fun _ => ReadOk None;
  voting_for := fun _ _ => ReadOk None;
  referendum_info_for := fun _ => ReadOk None;
  vesting_of := fun _ => ReadOk None;
  finalized_head := Ok (Some HEAD)
|}.

(** One class lock, one Standard vote [(vote, balance)] on referendum 7,
    whose information is [info]. *)
Definition one_vote_chain (vote balance : Z) (info : ReferendumInfo) : Chain := {|
  parse_account := fun s => Some s;
  balances_account := fun _ => ReadOk None;
  balances_locks := fun _ => ReadOk (Some []);
  class_locks_for := fun _ => ReadOk (Some [(0, balance)]);
  voting_for := fun _ _ => ReadOk (Some (Casting [(7, Standard vote balance)]));
  referendum_info_for := fun _ => ReadOk (Some info);
  vesting_of := fun _ => ReadOk None;
  finalized_head := Ok (Some HEAD)
|}.

(** The class-locks read of account ["A"] fails. *)
Definition failing_class_locks_chain : Chain := {|
  parse_account := fun s => Some s;
  balances_account := fun _ => ReadOk None;
  balances_locks := fun _ => ReadOk None;
  class_locks_for := fun k =>
    if String.eqb k "A" then FetchErr "connection reset" else ReadOk (Some []);
  voting_for := fun _ _ => ReadOk None;
  referendum_info_for := fun _ => ReadOk None;
  vesting_of := fun _ => ReadOk None;
  finalized_head := Ok (Some HEAD)
|}.

(** Empty class locks, no balance locks, no vesting. *)
Definition empty_account_chain : Chain := {|
  parse_account := fun s => Some s;
  balances_account := fun _ => ReadOk None;
  balances_locks := fun _ => ReadOk (Some []);
  class_locks_for := fun _ => ReadOk (Some []);
  voting_for := fun _ _ => ReadOk None;
  referendum_info_for := fun _ => ReadOk None;
  vesting_of := fun _ => ReadOk None;
  finalized_head := Ok (Some HEAD)
|}.


Definition day_ns (d : Z) : Z := dur_seconds (d * SECS_PER_DAY).

(** 50 tokens unlocking in 100 days, 30 tokens in 40 days. *)
Definition dominated_intervals : list LockedInterval :=
  [{| start_date := 0; end_date := day_ns 100; amount := 50 |};
   {| start_date := 0; end_date := day_ns 40; amount := 30 |}].

(** ** Auxiliary notions for the properties *)

(** The chain with its [balances.account] read replaced. *)
Definition with_balances_account (c : Chain) (f : AccountId32 -> read unit) : Chain := {|
  parse_account := parse_account c;
  balances_account := f;
  balances_locks := balances_locks c;
  class_locks_for := class_locks_for c;
  voting_for := voting_for c;
  referendum_info_for := referendum_info_for c;
  vesting_of := vesting_of c;
  finalized_head := finalized_head c
|}.

(** The quiet chain with the vesting schedules [infos] for every account. *)
Definition vesting_chain (infos : list VestingInfo) : Chain := {|
  parse_account := fun s => Some s;
  balances_account := fun _ => ReadOk None;
  balances_locks := fun _ => ReadOk None;
  class_locks_for := fun _ => ReadOk None;
  voting_for := fun _ _ => ReadOk None;
  referendum_info_for := fun _ => ReadOk None;
  vesting_of := fun _ => ReadOk (Some infos);
  finalized_head := Ok (Some HEAD)
|}.

(** The balance read of every account fails with [e]. *)
Definition balance_failing_chain (e : string) : Chain :=
  with_balances_account quiet_chain (fun _ => FetchErr e).

(** Two votes that differ at most in bit 7 of a Standard vote byte. *)
Definition same_lock_vote (x y : Z * AccountVote) : Prop :=
  match x, y with
  | (r, Standard v b), (r', Standard v' b') => r = r' /\ b = b' /\ v mod 128 = v' mod 128
  | _, _ => x = y
  end.

(** The [address] field of an account document. *)
Definition account_address (j : json) : option string :=
  match j with
  | JObj (("address"%string, JStr a) :: _) => Some a
  | _ => None
  end.

(** A token amount as the resolver produces it from a [u128] balance. *)
Definition planck_amount (x : Q) : Prop := exists b, 0 <= b /\ (x == plancks_to_dots b)%Q.

(** Position of a bucket in the listing order. *)
Definition category_rank (c : Category) : Z :=
  match c with
  | Locked0 => 0 | Locked1_7 => 1 | Locked8_14 => 2
  | Locked15_28 => 3 | Locked29_60 => 4 | Locked60plus => 5
  end.

(** The reduced buckets after the intervals [seen]: a bucket is empty
    exactly when no seen interval falls into it; otherwise it holds the
    amount of one of its intervals, no smaller than any other. *)
Definition bucket_inv (now : Z) (seen : list LockedInterval) (m : Buckets) : Prop :=
  forall c,
    (m c = None -> forall iv, In iv seen -> categorize_lock_period now (end_date iv) <> c) /\
    (forall a e, m c = Some (a, e) ->
       (exists iv, In iv seen /\ categorize_lock_period now (end_date iv) = c /\
                   (amount iv == a)%Q) /\
       (forall iv, In iv seen -> categorize_lock_period now (end_date iv) = c ->
                   (amount iv <= a)%Q)).

(** * Properties *)

(** ** The monad *)

Lemma bind_ok_inv {A B} (m : M A) (f : A -> M B) (b : B) :
  run_outcome (bind m f) = Ok b ->
  exists a, run_outcome m = Ok a /\ run_outcome (f a) = Ok b.
Proof.
  destruct m as [l [a|e|p]]; cbn; [|discriminate|discriminate].
  destruct (f a) as [l' r] eqn:Hf; cbn; intros ->.
  exists a; rewrite Hf; auto.
Qed.

Lemma bind_ret_l {A B} (a : A) (f : A -> M B) : bind (ret a) f = f a.
Proof. cbn. now destruct (f a). Qed.

(** ** Day counting *)

Lemma num_days_nonneg (x : Z) : 0 <= x -> num_days x = floor_days x.
Proof.
  intro Hx. unfold num_days, floor_days.
  rewrite Z.quot_quot by (unfold NANOS_PER_SEC, SECS_PER_DAY; lia).
  rewrite Z.mul_comm.
  apply Z.quot_div_nonneg; unfold NANOS_PER_SEC, SECS_PER_DAY; lia.
Qed.

Lemma num_days_neg (x : Z) : x < 0 -> num_days x <= 0.
Proof.
  intro Hx. unfold num_days.
  rewrite Z.quot_quot by (unfold NANOS_PER_SEC, SECS_PER_DAY; lia).
  replace x with (- (- x)) by lia.
  rewrite Z.quot_opp_l by (unfold NANOS_PER_SEC, SECS_PER_DAY; lia).
  enough (0 <= - x ÷ (NANOS_PER_SEC * SECS_PER_DAY)) by lia.
  apply Z.quot_pos; unfold NANOS_PER_SEC, SECS_PER_DAY; lia.
Qed.

Lemma floor_days_neg (x : Z) : x < 0 -> floor_days x < 0.
Proof.
  intro Hx. unfold floor_days.
  apply Z.div_lt_upper_bound; unfold NANOS_PER_SEC, SECS_PER_DAY; lia.
Qed.

(** [categorize_lock_period] is the floor-days bucketing. *)
Lemma categorize_floor_days (now e : Z) :
  categorize_lock_period now e =
  (let d := floor_days (e - now) in
   if d <=? 0 then Locked0
   else if d <=? 7 then Locked1_7
   else if d <=? 14 then Locked8_14
   else if d <=? 28 then Locked15_28
   else if d <=? 60 then Locked29_60
   else Locked60plus).
Proof.
  unfold categorize_lock_period; cbv zeta.
  destruct (Z_lt_le_dec (e - now) 0) as [Hn|Hp].
  - pose proof (num_days_neg _ Hn). pose proof (floor_days_neg _ Hn).
    replace (num_days (e - now) <=? 0) with true by (symmetry; apply Z.leb_le; lia).
    replace (floor_days (e - now) <=? 0) with true by (symmetry; apply Z.leb_le; lia).
    reflexivity.
  - rewrite (num_days_nonneg _ Hp).
    set (d := floor_days (e - now)).
    destruct (d <=? 0) eqn:H0; [reflexivity|].
    apply Z.leb_gt in H0.
    rewrite (proj2 (Z.leb_le 1 d)) by lia; cbn [andb].
    destruct (d <=? 7) eqn:H7; [reflexivity|]. apply Z.leb_gt in H7.
    rewrite (proj2 (Z.leb_le 8 d)) by lia; cbn [andb].
    destruct (d <=? 14) eqn:H14; [reflexivity|]. apply Z.leb_gt in H14.
    rewrite (proj2 (Z.leb_le 15 d)) by lia; cbn [andb].
    destruct (d <=? 28) eqn:H28; [reflexivity|]. apply Z.leb_gt in H28.
    rewrite (proj2 (Z.leb_le 29 d)) by lia; cbn [andb].
    destruct (d <=? 60) eqn:H60; reflexivity.
Qed.

(** ** C8 *)

(** C8. With [d = floor((end_at - now) in days)], [categorize_lock_period]
    assigns [0d] when [d <= 0], [1-7d] when [1 <= d <= 7], [8-14d] when
    [8 <= d <= 14], [15-28d] when [15 <= d <= 28], [29-60d] when
    [29 <= d <= 60] and [60+d] when [d >= 61]. *)
Theorem categorize_lock_period_buckets (now end_at : Z) :
  let d := floor_days (end_at - now) in
  (d <= 0 -> categorize_lock_period now end_at = Locked0) /\
  (1 <= d <= 7 -> categorize_lock_period now end_at = Locked1_7) /\
  (8 <= d <= 14 -> categorize_lock_period now end_at = Locked8_14) /\
  (15 <= d <= 28 -> categorize_lock_period now end_at = Locked15_28) /\
  (29 <= d <= 60 -> categorize_lock_period now end_at = Locked29_60) /\
  (61 <= d -> categorize_lock_period now end_at = Locked60plus).
Proof.
  intro d. rewrite categorize_floor_days. cbv zeta. fold d.
  repeat split; intros;
    repeat match goal with
    | |- context [d <=? ?k] =>
        first [ rewrite (proj2 (Z.leb_le d k)) by lia
              | rewrite (proj2 (Z.leb_gt d k)) by lia ]
    end; reflexivity.
Qed.

(** ** C5 *)

Lemma ladder_walk_entries (m : Buckets) (cats : list Category) (mx : Q) :
  ladder_walk m cats mx = map (ladder_entry m) cats.
Proof.
  revert mx; induction cats as [|c cs IH]; intro mx; [reflexivity|].
  cbn. unfold ladder_entry at 1. destruct (m c) as [[a e]|]; f_equal; apply IH.
Qed.

(** C5 (amended). The ladder has exactly six entries, in reverse listing
    order: [60+d] first, [0d] last. Each entry carries its bucket's name and
    either an amount formatted with 10 fractional digits together with the
    bucket's class tag, or ["none"] for both. *)
Theorem ladder_six_entries_longest_first (now : Z) (ivs : list LockedInterval) :
  Forall2 (fun c j => (exists a, j = present_entry c a) \/ j = none_entry c)
    [Locked60plus; Locked29_60; Locked15_28; Locked8_14; Locked1_7; Locked0]
    (ladder_entries now ivs) /\
  List.length (ladder_entries now ivs) = 6%nat.
Proof.
  unfold ladder_entries. rewrite ladder_walk_entries.
  change (rev lock_order) with
    [Locked60plus; Locked29_60; Locked15_28; Locked8_14; Locked1_7; Locked0].
  split; [|reflexivity].
  generalize [Locked60plus; Locked29_60; Locked15_28; Locked8_14; Locked1_7; Locked0].
  intro cats. induction cats as [|c cs IH]; constructor; [|exact IH].
  unfold ladder_entry. destruct (categorize_all now ivs c) as [[a e]|];
    [left; exists a; reflexivity | right; reflexivity].
Qed.

(** C5. Counterexample: the first entry of the ladder is the [60+d]
    bucket, not an entry (present or absent) of the [0d] bucket. *)
Lemma ladder_first_entry_is_longest :
  hd JNull (ladder_entries 0 []) = none_entry Locked60plus /\
  hd JNull (ladder_entries 0 []) <> none_entry Locked0 /\
  (forall a, hd JNull (ladder_entries 0 []) <> present_entry Locked0 a).
Proof.
  split; [reflexivity|]. split; [discriminate|].
  intros a H.
  change (hd JNull (ladder_entries 0 [])) with (none_entry Locked60plus) in H.
  unfold none_entry, present_entry, category_name in H.
  injection H as Hname _ _. discriminate Hname.
Qed.

(** ** C1 *)

(** C1. At a ladder with 50 tokens in [60+d] and 30 tokens in [29-60d],
    the dominance walk of the spec emits [29-60d] as absent (30 is not
    above the 50 already seen), while [display_liquidity_ladder] emits the
    30 tokens there: [max_lock_amount] is tracked but never used to
    suppress an entry. *)
Theorem ladder_keeps_dominated_bucket :
  nth 1 (ladder_entries 0 dominated_intervals) JNull = present_entry Locked29_60 30 /\
  nth 1 (dominance_walk_spec (categorize_all 0 dominated_intervals) (rev lock_order) 0)
    (Locked0, None) = (Locked29_60, None).
Proof. split; vm_compute; reflexivity. Qed.

(** ** The conviction lock horizon *)

Lemma calculate_end_datetime_ok (now base current k : Z) :
  base <= current -> 0 <= k <= 6 ->
  calculate_end_datetime now base current k =
  ret (now, now - dur_seconds ((current - base) * SECONDS_PER_BLOCK)
            + day_ns (BASE_LOCK_PERIOD * 2 ^ k)).
Proof.
  intros Hb Hk. unfold calculate_end_datetime, sub_u32.
  rewrite (proj2 (Z.leb_le base current) Hb), bind_ret_l.
  unfold get_conviction_multiplier.
  rewrite (proj2 (Z.leb_le 0 k)) by lia. rewrite (proj2 (Z.leb_le k 6)) by lia.
  cbn [andb]. rewrite bind_ret_l, Z.shiftl_1_l by lia.
  unfold ret, day_ns, dur_minutes, dur_seconds, SECS_PER_DAY,
    HOURS_PER_DAY, MINUTES_PER_HOUR. do 3 f_equal. ring.
Qed.

(** ** C2 *)

(** C2. Scenario S1 (conviction 6, referendum approved 100 blocks before
    the head): the emitted interval starts at [Utc::now()] and its length
    is [28 * 2^6] days minus the 600 seconds between the reference block
    and the head, not [28 * 2^6] days. *)
Theorem conviction_interval_length_s1 (now : Z) :
  exists iv,
    run_outcome (process_class_locks (one_vote_chain 134 (100 * DOT) (Approved (HEAD - 100)))
                   now "acct"%string [(0, 100 * DOT)] HEAD) = Ok [iv] /\
    start_date iv = now /\
    end_date iv - start_date iv = day_ns (28 * 2 ^ 6) - dur_seconds 600.
Proof.
  unfold process_class_locks, process_class_locks_from, fetch_voting, fetch.
  cbn [one_vote_chain voting_for fst]. rewrite bind_ret_l. cbn iota.
  unfold process_casting_votes, fetch_referendum_info, fetch.
  cbn [one_vote_chain referendum_info_for]. rewrite bind_ret_l.
  cbn [reference_block]. match goal with |- context [?x =? 0] =>
    rewrite (proj2 (Z.eqb_neq x 0)) by (unfold HEAD; lia) end. cbn [negb].
  rewrite calculate_end_datetime_ok by (unfold HEAD; cbn; lia).
  rewrite !bind_ret_l.
  eexists; split; [reflexivity|]. cbn.
  split; [reflexivity|]. unfold HEAD, day_ns, dur_seconds, SECONDS_PER_BLOCK, BASE_LOCK_PERIOD. lia.
Qed.

(** ** C3 *)

(** C3. A conviction-0 vote on a referendum approved 10,000,000 blocks
    (about 694 days) before the head: the emitted interval ends before it
    starts, since [start_date] is [Utc::now()] and [end_date] is 28 days
    after the reference block; its amount is non-negative. *)
Theorem old_vote_interval_ends_before_start (now : Z) :
  exists iv,
    run_outcome (process_class_locks (one_vote_chain 0 (10 * DOT) (Approved (HEAD - 10000000)))
                   now "acct"%string [(0, 10 * DOT)] HEAD) = Ok [iv] /\
    end_date iv < start_date iv /\ (0 <= amount iv)%Q.
Proof.
  unfold process_class_locks, process_class_locks_from, fetch_voting, fetch.
  cbn [one_vote_chain voting_for fst]. rewrite bind_ret_l. cbn iota.
  unfold process_casting_votes, fetch_referendum_info, fetch.
  cbn [one_vote_chain referendum_info_for]. rewrite bind_ret_l.
  cbn [reference_block]. match goal with |- context [?x =? 0] =>
    rewrite (proj2 (Z.eqb_neq x 0)) by (unfold HEAD; lia) end. cbn [negb].
  rewrite calculate_end_datetime_ok by (unfold HEAD; cbn; lia).
  rewrite !bind_ret_l.
  eexists; split; [reflexivity|]. cbn.
  split; [unfold HEAD, day_ns, dur_seconds, SECONDS_PER_BLOCK, BASE_LOCK_PERIOD; lia|].
  unfold plancks_to_dots, Qle; cbn; lia.
Qed.

(** ** C4 *)

(** C4. The class-locks read of the first of two accounts fails: the
    failure is logged, then propagated by [?] up to [main], which stops;
    the second account is never read and no report is produced. *)
Theorem class_locks_failure_aborts_run (now : Z) :
  main_document failing_class_locks_chain now "2026-10-18 00:00:00" ["A"; "B"]%string =
  (["[Error] Fetching failed for class locks: connection reset"%string], Err "connection reset").
Proof. reflexivity. Qed.

(** ** C9 *)

(** C9. A Standard vote whose referendum reference block lies above the
    sampled head makes the [u32] subtraction [current_block - base_block]
    underflow: [process_casting_votes] panics. *)
Theorem reference_block_above_head_panics (chain : Chain) (now cur ref_num vote balance : Z)
  (info : ReferendumInfo) (rest : list (Z * AccountVote)) (acc : list LockedInterval) :
  referendum_info_for chain ref_num = ReadOk (Some info) ->
  0 <= cur < reference_block (Some info) ->
  run_outcome (process_casting_votes chain now cur ((ref_num, Standard vote balance) :: rest) acc)
  = Panic "attempt to subtract with overflow".
Proof.
  intros Hinfo Hlt. unfold process_casting_votes, fetch_referendum_info, fetch.
  rewrite Hinfo, bind_ret_l.
  match goal with |- context [?x =? 0] =>
    rewrite (proj2 (Z.eqb_neq x 0)) by lia end. cbn [negb].
  unfold calculate_end_datetime, sub_u32.
  rewrite (proj2 (Z.leb_gt (reference_block (Some info)) cur)) by lia. reflexivity.
Qed.

Lemma reference_block_above_head_panics_witness :
  referendum_info_for (one_vote_chain 134 DOT (Ongoing (HEAD + 1))) 7
    = ReadOk (Some (Ongoing (HEAD + 1))) /\
  0 <= HEAD < reference_block (Some (Ongoing (HEAD + 1))) /\
  run_outcome (process_casting_votes (one_vote_chain 134 DOT (Ongoing (HEAD + 1))) 0 HEAD
                 [(7, Standard 134 DOT)] [])
  = Panic "attempt to subtract with overflow".
Proof.
  split; [reflexivity|]. split; [unfold HEAD; cbn; lia|].
  apply (reference_block_above_head_panics _ 0 HEAD 7 134 DOT (Ongoing (HEAD + 1)));
    [reflexivity | unfold HEAD; cbn; lia].
Defined.

(** ** C10 *)

(** C10. A vesting entry with [per_block = 0] makes the [u128] division
    [locked / per_block] panic in [display_vesting_info]. *)
Theorem vesting_zero_per_block_panics (chain : Chain) (key : AccountId32)
  (v : VestingInfo) (rest : list VestingInfo) (cur : Z) :
  vesting_of chain key = ReadOk (Some (v :: rest)) ->
  finalized_head chain = Ok (Some cur) ->
  per_block v = 0 ->
  run_outcome (display_vesting_info chain key) = Panic "attempt to divide by zero".
Proof.
  intros Hv Hf Hp. unfold display_vesting_info, fetch_vesting, fetch.
  rewrite Hv, bind_ret_l, Hf. cbn [vesting_loop].
  unfold vesting_schedule, div_u128. rewrite Hp. reflexivity.
Qed.

Lemma vesting_zero_per_block_panics_witness :
  let v := {| locked := 200 * DOT; per_block := 0; starting_block := 1 |} in
  let c := {| parse_account := fun s => Some s;
              balances_account := fun _ => ReadOk None;
              balances_locks := fun _ => ReadOk None;
              class_locks_for := fun _ => ReadOk None;
              voting_for := fun _ _ => ReadOk None;
              referendum_info_for := fun _ => ReadOk None;
              vesting_of := fun _ => ReadOk (Some [v]);
              finalized_head := Ok (Some HEAD) |} in
  vesting_of c "acct" = ReadOk (Some [v]) /\ finalized_head c = Ok (Some HEAD) /\
  per_block v = 0 /\
  run_outcome (display_vesting_info c "acct") = Panic "attempt to divide by zero".
Proof.
  cbv zeta. split; [reflexivity|]. split; [reflexivity|]. split; [reflexivity|].
  eapply vesting_zero_per_block_panics; reflexivity.
Defined.

(** ** C6 *)

(** C6 (amended). For a vesting entry with [per_block > 0], the number of
    blocks is [locked / per_block] rounded down (taken as [u32]), and
    [end_date - start_date] is that many 6-second blocks rounded down to
    whole minutes. *)
Theorem vesting_total_blocks_floor (cur : Z) (v : VestingInfo) :
  0 < per_block v ->
  exists s e,
    run_outcome (vesting_schedule cur v) =
      Ok (s, e, plancks_to_dots (locked v), plancks_to_dots (per_block v)) /\
    e - s = dur_minutes ((as_u32 (locked v / per_block v) * SECONDS_PER_BLOCK)
                         / MINUTES_PER_HOUR).
Proof.
  intro Hp. unfold vesting_schedule, div_u128.
  rewrite (proj2 (Z.eqb_neq (per_block v) 0)) by lia. rewrite bind_ret_l.
  eexists _, _; split; [reflexivity|].
  unfold calculate_vesting_datetimes; cbn [fst snd].
  assert (0 <= as_u32 (locked v / per_block v)).
  { unfold as_u32. apply Z.mod_pos_bound. lia. }
  rewrite (Z.quot_div_nonneg (as_u32 (locked v / per_block v) * SECONDS_PER_BLOCK))
    by (unfold SECONDS_PER_BLOCK, MINUTES_PER_HOUR; lia).
  lia.
Qed.

Lemma vesting_total_blocks_floor_witness :
  0 < per_block {| locked := 200 * DOT; per_block := DOT; starting_block := 1 |} /\
  exists s e,
    run_outcome (vesting_schedule HEAD {| locked := 200 * DOT; per_block := DOT; starting_block := 1 |}) =
      Ok (s, e, plancks_to_dots (200 * DOT), plancks_to_dots DOT) /\
    e - s = dur_minutes ((as_u32 (200 * DOT / DOT) * SECONDS_PER_BLOCK) / MINUTES_PER_HOUR).
Proof.
  split; [cbn; lia|].
  exact (vesting_total_blocks_floor HEAD {| locked := 200 * DOT; per_block := DOT; starting_block := 1 |}
           ltac:(cbn; lia)).
Defined.

(** C6. Counterexample: [locked = 3], [per_block = 2]: [ceil(3/2) = 2]
    blocks are 12 seconds, but the schedule is computed with [3 / 2 = 1]
    block, which is 0 whole minutes: [end_date = start_date]. *)
Lemma vesting_three_over_two_not_ceil :
  exists s e a b,
    run_outcome (vesting_schedule HEAD {| locked := 3; per_block := 2; starting_block := 1 |})
      = Ok (s, e, a, b) /\
    e - s = 0 /\ e - s <> dur_seconds (SECONDS_PER_BLOCK * ((3 + 2 - 1) / 2)).
Proof.
  do 4 eexists. split; [reflexivity|]. cbn. split; [lia | discriminate].
Qed.

(** ** C7 *)



(** C7. [gather_and_cross_reference] puts the results of
    [display_lock_totals] and [display_vesting_info] into the [locks] and
    [vesting] fields, but both return [()], which serialises to [null]: for
    an account with empty class locks, no balance locks and no vesting the
    fields are [null], not [[]], and an account with a vesting schedule also
    gets [vesting: null]. *)
Lemma empty_account_lists_are_null :
  run_outcome (gather_and_cross_reference empty_account_chain 0 "acct") =
    Ok (JObj [("liquidity"%string, JObj [("locks"%string, JArr (map none_entry (rev lock_order)))]);
              ("locks"%string, JNull); ("vesting"%string, JNull)]) /\
  JNull <> JArr [] /\
  vesting_of (vesting_chain [{| locked := 100 * DOT; per_block := DOT; starting_block := 0 |}])
    "acct" = ReadOk (Some [{| locked := 100 * DOT; per_block := DOT; starting_block := 0 |}]) /\
  run_outcome (gather_and_cross_reference
    (vesting_chain [{| locked := 100 * DOT; per_block := DOT; starting_block := 0 |}]) 0 "acct") =
    Ok (JObj [("liquidity"%string, JObj []); ("locks"%string, JNull); ("vesting"%string, JNull)]).
Proof. split; [reflexivity|]. split; [discriminate|]. split; reflexivity. Qed.


(** * Further properties of the code *)

(** ** Intra-bucket reduction *)

Lemma category_eqb_true (a b : Category) : category_eqb a b = true <-> a = b.
Proof. destruct a, b; cbn; split; congruence. Qed.

Lemma Qltb_true (x y : Q) : Qltb x y = true <-> (x < y)%Q.
Proof.
  unfold Qltb. rewrite negb_true_iff. split; intro H.
  - apply Qnot_le_lt. intro H'. apply Qle_bool_iff in H'. congruence.
  - destruct (Qle_bool y x) eqn:E; [|reflexivity].
    apply Qle_bool_iff in E. exfalso. apply (Qlt_not_le _ _ H E).
Qed.

Lemma Qltb_false (x y : Q) : Qltb x y = false -> (y <= x)%Q.
Proof.
  unfold Qltb. rewrite negb_false_iff. apply Qle_bool_iff.
Qed.

(** Two amounts of whole plancks closer than [f64::EPSILON] are equal. *)
Lemma planck_tie (b1 b2 : Z) :
  (Qabs (plancks_to_dots b1 - plancks_to_dots b2) < F64_EPSILON)%Q ->
  (plancks_to_dots b1 == plancks_to_dots b2)%Q.
Proof.
  rewrite Qabs_Qlt_condition. intros [H1 H2].
  unfold plancks_to_dots, PLANCKS_PER_DOT, F64_EPSILON, Qminus, Qplus, Qopp,
    Qmult, Qdiv, Qinv, Qlt, Qeq in *; cbn in *. lia.
Qed.

Lemma bucket_step_at (now : Z) (m : Buckets) (iv : LockedInterval) (c : Category) :
  bucket_step now m iv c =
  if category_eqb (categorize_lock_period now (end_date iv)) c
  then Some (let entry := match m (categorize_lock_period now (end_date iv)) with
                          | Some e => e | None => (0%Q, 0) end in
             if Qltb (fst entry) (amount iv)
                || (Qltb (Qabs (amount iv - fst entry)) F64_EPSILON && (snd entry <? end_date iv))
             then (amount iv, end_date iv) else entry)
  else m c.
Proof.
  unfold bucket_step, buckets_insert. cbv zeta.
  destruct (_ || _); reflexivity.
Qed.

Lemma planck_amount_nonneg (x : Q) : planck_amount x -> (0 <= x)%Q.
Proof.
  intros [b [Hb Hx]]. rewrite Hx.
  unfold plancks_to_dots, PLANCKS_PER_DOT, Qdiv, Qmult, Qinv, Qle; cbn. lia.
Qed.

Lemma planck_amount_zero : planck_amount 0%Q.
Proof. exists 0. split; [lia | reflexivity]. Qed.

Lemma planck_amount_tie (x y : Q) :
  planck_amount x -> planck_amount y -> (Qabs (x - y) < F64_EPSILON)%Q -> (x == y)%Q.
Proof.
  intros [bx [_ Hx]] [by_ [_ Hy]] H. rewrite Hx, Hy in *. now apply planck_tie.
Qed.

Lemma bucket_inv_empty (now : Z) : bucket_inv now [] buckets_empty.
Proof.
  intro c. split.
  - intros _ iv [].
  - intros a e H. discriminate.
Qed.

Lemma bucket_inv_step (now : Z) (seen : list LockedInterval) (m : Buckets)
  (iv : LockedInterval) :
  Forall (fun x => planck_amount (amount x)) seen ->
  planck_amount (amount iv) ->
  bucket_inv now seen m ->
  bucket_inv now (seen ++ [iv]) (bucket_step now m iv).
Proof.
  intros Hseen Hiv Hinv c. rewrite bucket_step_at.
  set (k := categorize_lock_period now (end_date iv)).
  destruct (category_eqb k c) eqn:Ek.
  - apply category_eqb_true in Ek. subst c. split; [discriminate|].
    set (entry := match m k with Some e => e | None => (0%Q, 0) end).
    (* what the entry before the step guarantees *)
    assert (Hent : planck_amount (fst entry) /\
              (forall x, In x seen -> categorize_lock_period now (end_date x) = k ->
                         (amount x <= fst entry)%Q) /\
              (forall e0, m k = Some e0 -> exists x, In x seen /\
                 categorize_lock_period now (end_date x) = k /\ (amount x == fst e0)%Q) /\
              (m k = None -> entry = (0%Q, 0))).
    { destruct (Hinv k) as [Hn Hs]. unfold entry.
      destruct (m k) as [[a0 e0]|] eqn:Hm; cbn [fst].
      - destruct (Hs a0 e0 eq_refl) as [[w [Hw [Hwk Hwa]]] Hall].
        split; [|split; [exact Hall|split; [|discriminate]]].
        + rewrite Forall_forall in Hseen. destruct (Hseen w Hw) as [b [Hb Hb']].
          exists b. split; [exact Hb|]. rewrite <- Hwa. exact Hb'.
        + intros e1 He1. injection He1 as <-. exists w. auto.
      - split; [apply planck_amount_zero|]. split; [|split; [discriminate|reflexivity]].
        intros x Hx Hxk. exfalso. exact (Hn eq_refl x Hx Hxk). }
    destruct Hent as [Hep [Hele [Hewit Henone]]].
    cbv zeta. fold entry.
    destruct (Qltb (fst entry) (amount iv)
              || (Qltb (Qabs (amount iv - fst entry)) F64_EPSILON
                  && (snd entry <? end_date iv))) eqn:Hc;
      intros a e Hs; injection Hs; clear Hs.
    + (* the interval replaces the entry *)
      intros <- <-. split.
      * exists iv. split; [apply in_app_iff; right; left; reflexivity|].
        split; [reflexivity | apply Qeq_refl].
      * intros x Hx Hxk. apply in_app_iff in Hx as [Hx|[<-|[]]]; [|apply Qle_refl].
        specialize (Hele x Hx Hxk).
        apply orb_true_iff in Hc as [Hlt|Htie].
        -- apply Qltb_true in Hlt. apply Qlt_le_weak. eapply Qle_lt_trans; eauto.
        -- apply andb_true_iff in Htie as [Htie _]. apply Qltb_true in Htie.
           pose proof (planck_amount_tie _ _ Hiv Hep Htie) as Heq.
           rewrite Heq. exact Hele.
    + (* the entry is kept *)
      intro Hs. apply orb_false_iff in Hc as [Hc _]. apply Qltb_false in Hc.
      subst entry. split.
      * destruct (m k) as [e0|] eqn:Hm.
        -- destruct (Hewit e0 eq_refl) as [x [Hx Hxk]]. subst e0.
           exists x. split; [apply in_app_iff; left; exact Hx | exact Hxk].
        -- cbv beta iota zeta delta [fst] in Hs, Hc. injection Hs as <- _.
           exists iv. split; [apply in_app_iff; right; left; reflexivity|].
           split; [reflexivity|].
           apply Qle_antisym; [exact Hc | apply planck_amount_nonneg, Hiv].
      * intros x Hx Hxk. rewrite Hs in Hele, Hc. cbn [fst] in Hele, Hc.
        apply in_app_iff in Hx as [Hx|[<-|[]]]; [exact (Hele x Hx Hxk) | exact Hc].
  - destruct (Hinv c) as [Hn Hs].
    assert (Hk : k <> c) by (intro H; rewrite H in Ek; destruct c; discriminate).
    split.
    + intros Hm x Hx. apply in_app_iff in Hx as [Hx|[<-|[]]]; [exact (Hn Hm x Hx) | exact Hk].
    + intros a e Hm. destruct (Hs a e Hm) as [[w [Hw Hwk]] Hall]. split.
      * exists w. split; [apply in_app_iff; left; exact Hw | exact Hwk].
      * intros x Hx Hxk. apply in_app_iff in Hx as [Hx|[<-|[]]];
          [exact (Hall x Hx Hxk) | contradiction].
Qed.

Lemma bucket_inv_fold (now : Z) (ivs seen : list LockedInterval) (m : Buckets) :
  Forall (fun x => planck_amount (amount x)) (seen ++ ivs) ->
  bucket_inv now seen m ->
  bucket_inv now (seen ++ ivs) (fold_left (bucket_step now) ivs m).
Proof.
  revert seen m. induction ivs as [|iv ivs IH]; intros seen m Hall Hinv.
  - rewrite app_nil_r. exact Hinv.
  - cbn [fold_left]. replace (seen ++ iv :: ivs) with ((seen ++ [iv]) ++ ivs)
      by (rewrite <- app_assoc; reflexivity).
    replace (seen ++ iv :: ivs) with ((seen ++ [iv]) ++ ivs) in Hall
      by (rewrite <- app_assoc; reflexivity).
    apply IH; [exact Hall|].
    apply Forall_app in Hall as [Hall _]. apply Forall_app in Hall as [Hs Hi].
    inversion Hi; subst. apply bucket_inv_step; assumption.
Qed.

Lemma ladder_entry_in (m : Buckets) (c : Category) (mx : Q) :
  In (ladder_entry m c) (ladder_walk m (rev lock_order) mx).
Proof.
  rewrite ladder_walk_entries. apply in_map. destruct c; cbn; tauto.
Qed.

(** The ladder reports, for each bucket, ["none"] when no interval falls
    into it, and otherwise the largest amount among its intervals (amounts
    being whole numbers of plancks, as the resolver produces them). *)
Theorem ladder_reports_bucket_maximum (now : Z) (ivs : list LockedInterval) (c : Category) :
  Forall (fun iv => planck_amount (amount iv)) ivs ->
  ((forall iv, In iv ivs -> categorize_lock_period now (end_date iv) <> c) ->
     In (none_entry c) (ladder_entries now ivs)) /\
  ((exists iv, In iv ivs /\ categorize_lock_period now (end_date iv) = c) ->
     exists a, In (present_entry c a) (ladder_entries now ivs) /\
       (exists iv, In iv ivs /\ categorize_lock_period now (end_date iv) = c /\
                   (amount iv == a)%Q) /\
       (forall iv, In iv ivs -> categorize_lock_period now (end_date iv) = c ->
                   (amount iv <= a)%Q)).
Proof.
  intro Hall.
  pose proof (bucket_inv_fold now ivs [] buckets_empty Hall (bucket_inv_empty now)) as Hinv.
  cbn [app] in Hinv. fold (categorize_all now ivs) in Hinv.
  pose proof (ladder_entry_in (categorize_all now ivs) c 0%Q) as Hin.
  unfold ladder_entries. unfold ladder_entry in Hin.
  destruct (Hinv c) as [Hn Hs].
  destruct (categorize_all now ivs c) as [[a e]|] eqn:Hm.
  - destruct (Hs a e eq_refl) as [[w [Hw [Hwc Hwa]]] Hmax]. split.
    + intro Hno. exfalso. exact (Hno w Hw Hwc).
    + intros _. exists a. split; [exact Hin|]. split; [exists w; auto | exact Hmax].
  - split.
    + intros _. exact Hin.
    + intros [w [Hw Hwc]]. exfalso. exact (Hn eq_refl w Hw Hwc).
Qed.

Lemma ladder_reports_bucket_maximum_witness :
  Forall (fun iv => planck_amount (amount iv)) dominated_intervals /\
  (exists a, In (present_entry Locked60plus a) (ladder_entries 0 dominated_intervals) /\
     (exists iv, In iv dominated_intervals /\
                 categorize_lock_period 0 (end_date iv) = Locked60plus /\ (amount iv == a)%Q) /\
     (forall iv, In iv dominated_intervals ->
                 categorize_lock_period 0 (end_date iv) = Locked60plus -> (amount iv <= a)%Q)).
Proof.
  assert (H : Forall (fun iv => planck_amount (amount iv)) dominated_intervals).
  { repeat constructor.
    - exists (50 * DOT). split; [unfold DOT; lia | reflexivity].
    - exists (30 * DOT). split; [unfold DOT; lia | reflexivity]. }
  split; [exact H|].
  apply (proj2 (ladder_reports_bucket_maximum 0 dominated_intervals Locked60plus H)).
  exists {| start_date := 0; end_date := day_ns 100; amount := 50 |}.
  split; [left; reflexivity | reflexivity].
Defined.

(** ** Conviction lock resolver *)

Lemma bind_ext {A B} (m : M A) (f g : A -> M B) :
  (forall a, f a = g a) -> bind m f = bind m g.
Proof. intro H. destruct m as [l [a|e|p]]; cbn; [rewrite H|..]; reflexivity. Qed.

(** Bit 7 (aye/nay) of a Standard vote byte has no effect on the
    intervals: votes that differ only there give the same result. *)
Theorem process_casting_votes_ignores_aye_bit (chain : Chain) (now cur : Z)
  (votes votes' : list (Z * AccountVote)) (acc : list LockedInterval) :
  Forall2 same_lock_vote votes votes' ->
  process_casting_votes chain now cur votes acc =
  process_casting_votes chain now cur votes' acc.
Proof.
  intro H. revert acc.
  induction H as [|[r v] [r' v'] xs ys Hxy Hrest IH]; intro acc; [reflexivity|].
  cbn [process_casting_votes].
  destruct v as [vb b|a n|a n ab], v' as [vb' b'|a' n'|a' n' ab'];
    cbn [same_lock_vote] in Hxy;
    try (inversion Hxy; subst; apply bind_ext; intro; apply bind_ext; intro; apply IH).
  destruct Hxy as [-> [-> Hv]].
  apply bind_ext; intro rd. rewrite Hv. apply bind_ext; intro. apply IH.
Qed.

Lemma process_casting_votes_ignores_aye_bit_witness :
  Forall2 same_lock_vote [(7, Standard 134 DOT)] [(7, Standard 6 DOT)] /\
  process_casting_votes (one_vote_chain 134 DOT (Approved (HEAD - 100))) 0 HEAD
    [(7, Standard 134 DOT)] [] =
  process_casting_votes (one_vote_chain 134 DOT (Approved (HEAD - 100))) 0 HEAD
    [(7, Standard 6 DOT)] [].
Proof.
  assert (H : Forall2 same_lock_vote [(7, Standard 134 DOT)] [(7, Standard 6 DOT)]).
  { constructor; [cbn; auto | constructor]. }
  split; [exact H|]. apply process_casting_votes_ignores_aye_bit. exact H.
Defined.

(** A Standard vote whose conviction (the low 7 bits of the vote byte)
    exceeds 6 makes the resolver panic once its reference block is usable. *)
Theorem conviction_above_six_panics (chain : Chain) (now cur ref_num vote balance : Z)
  (info : ReferendumInfo) (rest : list (Z * AccountVote)) (acc : list LockedInterval) :
  referendum_info_for chain ref_num = ReadOk (Some info) ->
  0 < reference_block (Some info) <= cur ->
  6 < vote mod 128 ->
  run_outcome (process_casting_votes chain now cur ((ref_num, Standard vote balance) :: rest) acc)
  = Panic "Unknown conviction value".
Proof.
  intros Hinfo Hb Hv. unfold process_casting_votes, fetch_referendum_info, fetch.
  rewrite Hinfo, bind_ret_l.
  rewrite (proj2 (Z.eqb_neq (reference_block (Some info)) 0)) by lia. cbn [negb].
  unfold calculate_end_datetime, sub_u32.
  rewrite (proj2 (Z.leb_le (reference_block (Some info)) cur)) by lia.
  rewrite bind_ret_l. unfold get_conviction_multiplier.
  rewrite (proj2 (Z.leb_gt (vote mod 128) 6)) by lia. rewrite andb_false_r.
  reflexivity.
Qed.

Lemma conviction_above_six_panics_witness :
  referendum_info_for (one_vote_chain 7 DOT (Approved (HEAD - 100))) 7
    = ReadOk (Some (Approved (HEAD - 100))) /\
  0 < reference_block (Some (Approved (HEAD - 100))) <= HEAD /\
  6 < 135 mod 128 /\
  run_outcome (process_casting_votes (one_vote_chain 7 DOT (Approved (HEAD - 100))) 0 HEAD
                 [(7, Standard 135 DOT)] [])
  = Panic "Unknown conviction value".
Proof.
  split; [reflexivity|]. split; [unfold HEAD; cbn; lia|]. split; [cbn; lia|].
  apply conviction_above_six_panics with (info := Approved (HEAD - 100));
    [reflexivity | unfold HEAD; cbn; lia | cbn; lia].
Defined.

(** Votes whose referendum has no usable reference block (absent, or block
    0) and votes that are not Standard are skipped: the intervals are
    returned unchanged and nothing is logged. *)
Theorem skipped_votes_leave_intervals (chain : Chain) (now cur : Z)
  (votes : list (Z * AccountVote)) (acc : list LockedInterval) :
  Forall (fun rv => exists x, referendum_info_for chain (fst rv) = ReadOk x /\
            (reference_block x = 0 \/ forall v b, snd rv <> Standard v b)) votes ->
  process_casting_votes chain now cur votes acc = ret acc.
Proof.
  intro H. induction H as [|[r v] rest [x [Hr Hskip]] _ IH]; [reflexivity|].
  cbn [process_casting_votes]. unfold fetch_referendum_info, fetch.
  cbn [fst] in Hr. rewrite Hr, bind_ret_l.
  destruct Hskip as [H0|Hns].
  - rewrite H0. cbn [Z.eqb negb]. rewrite bind_ret_l. exact IH.
  - destruct (negb _); [|rewrite bind_ret_l; exact IH].
    destruct v as [vb b|a n|a n ab];
      [exfalso; exact (Hns vb b eq_refl) | rewrite bind_ret_l; exact IH ..].
Qed.

Lemma skipped_votes_leave_intervals_witness :
  Forall (fun rv => exists x,
            referendum_info_for (one_vote_chain 134 DOT (Approved (HEAD - 100))) (fst rv)
              = ReadOk x /\
            (reference_block x = 0 \/ forall v b, snd rv <> Standard v b))
    [(7, Split DOT DOT)] /\
  process_casting_votes (one_vote_chain 134 DOT (Approved (HEAD - 100))) 0 HEAD
    [(7, Split DOT DOT)] [] = ret [].
Proof.
  assert (H : Forall (fun rv => exists x,
            referendum_info_for (one_vote_chain 134 DOT (Approved (HEAD - 100))) (fst rv)
              = ReadOk x /\
            (reference_block x = 0 \/ forall v b, snd rv <> Standard v b))
    [(7, Split DOT DOT)]).
  { constructor; [|constructor]. eexists. split; [reflexivity|].
    right. intros v b. discriminate. }
  split; [exact H|]. apply skipped_votes_leave_intervals. exact H.
Defined.

Lemma calculate_end_datetime_start (now base current k : Z) (d : Z * Z) :
  run_outcome (calculate_end_datetime now base current k) = Ok d -> fst d = now.
Proof.
  unfold calculate_end_datetime. intro H.
  apply bind_ok_inv in H as [bd [_ H]].
  apply bind_ok_inv in H as [m [_ H]].
  unfold ret, run_outcome in H. cbn [snd] in H. injection H as <-. reflexivity.
Qed.

Lemma process_casting_votes_intervals (chain : Chain) (now cur : Z)
  (R : LockedInterval -> Prop) (votes : list (Z * AccountVote)) (acc ivs : list LockedInterval) :
  (forall r v b e, In (r, Standard v b) votes ->
     R {| start_date := now; end_date := e; amount := plancks_to_dots b |}) ->
  Forall R acc ->
  run_outcome (process_casting_votes chain now cur votes acc) = Ok ivs ->
  Forall R ivs.
Proof.
  revert acc. induction votes as [|[r vd] rest IH]; intros acc Hb Hacc H.
  - cbn in H. injection H as <-. exact Hacc.
  - cbn [process_casting_votes] in H.
    apply bind_ok_inv in H as [rd [_ H]].
    apply bind_ok_inv in H as [acc' [Hacc' H]].
    apply (IH acc'); [intros r' v b e Hin; apply (Hb r' v b e); right; exact Hin| |exact H].
    destruct (negb _);
      [|unfold ret, run_outcome in Hacc'; cbn [snd] in Hacc'; injection Hacc' as <-; exact Hacc].
    destruct vd as [v b|a n|a n ab];
      [|unfold ret, run_outcome in Hacc'; cbn [snd] in Hacc'; injection Hacc' as <-; exact Hacc ..].
    apply bind_ok_inv in Hacc' as [d [Hd Hret]].
    pose proof (calculate_end_datetime_start _ _ _ _ _ Hd) as Hs.
    destruct d as [d1 d2]. cbn [fst] in Hs. subst d1.
    unfold ret, run_outcome in Hret. cbn [snd] in Hret. injection Hret as <-.
    unfold update_lock_dates. apply Forall_app. split; [exact Hacc|].
    constructor; [|constructor]. cbn [fst snd].
    apply (Hb r v b d2). left. reflexivity.
Qed.

Lemma process_class_locks_from_intervals (chain : Chain) (now : Z) (key : AccountId32)
  (cur : Z) (R : LockedInterval -> Prop) (class_locks : list (Z * Z))
  (acc ivs : list LockedInterval) :
  (forall cl votes r v b e, In cl class_locks ->
     voting_for chain key (fst cl) = ReadOk (Some (Casting votes)) ->
     In (r, Standard v b) votes ->
     R {| start_date := now; end_date := e; amount := plancks_to_dots b |}) ->
  Forall R acc ->
  run_outcome (process_class_locks_from chain now key class_locks cur acc) = Ok ivs ->
  Forall R ivs.
Proof.
  revert acc. induction class_locks as [|cl rest IH]; intros acc Hb Hacc H.
  - cbn in H. injection H as <-. exact Hacc.
  - cbn [process_class_locks_from] in H.
    apply bind_ok_inv in H as [vd [Hvd H]].
    apply bind_ok_inv in H as [acc' [Hacc' H]].
    apply (IH acc'); [intros cl' votes r v b e Hin; apply Hb; right; exact Hin| |exact H].
    destruct vd as [[votes|]|];
      [|unfold ret, run_outcome in Hacc'; cbn [snd] in Hacc'; injection Hacc' as <-; exact Hacc ..].
    apply (process_casting_votes_intervals chain now cur R votes acc); [|exact Hacc|exact Hacc'].
    intros r v b e Hin. apply (Hb cl votes r v b e); [left; reflexivity| |exact Hin].
    unfold fetch_voting, fetch in Hvd.
    destruct (voting_for chain key (fst cl)) eqn:E; cbn in Hvd; try discriminate.
    injection Hvd as ->. reflexivity.
Qed.

(** Every interval the resolver emits starts at [Utc::now()], and its
    amount is the balance of a Standard vote cast in one of the account's
    lock classes, converted to tokens. *)
Theorem process_class_locks_intervals (chain : Chain) (now : Z) (key : AccountId32)
  (class_locks : list (Z * Z)) (cur : Z) (ivs : list LockedInterval) :
  run_outcome (process_class_locks chain now key class_locks cur) = Ok ivs ->
  Forall (fun iv => start_date iv = now /\
            exists cl votes r v b,
              In cl class_locks /\
              voting_for chain key (fst cl) = ReadOk (Some (Casting votes)) /\
              In (r, Standard v b) votes /\
              amount iv = plancks_to_dots b) ivs.
Proof.
  unfold process_class_locks. intro H.
  refine (process_class_locks_from_intervals chain now key cur _ class_locks [] ivs _ _ H);
    [|constructor].
  intros cl votes r v b e Hin Hv Hrv. cbn [start_date amount].
  split; [reflexivity|]. exists cl, votes, r, v, b. auto.
Qed.

Lemma process_class_locks_intervals_witness :
  exists ivs,
    run_outcome (process_class_locks (one_vote_chain 6 (100 * DOT) (Approved (HEAD - 100)))
                   0 "A" [(0, 100 * DOT)] HEAD) = Ok ivs /\
    Forall (fun iv => start_date iv = 0 /\
              exists cl votes r v b,
                In cl [(0, 100 * DOT)] /\
                voting_for (one_vote_chain 6 (100 * DOT) (Approved (HEAD - 100))) "A" (fst cl)
                  = ReadOk (Some (Casting votes)) /\
                In (r, Standard v b) votes /\
                amount iv = plancks_to_dots b) ivs.
Proof.
  exists (match run_outcome (process_class_locks
                (one_vote_chain 6 (100 * DOT) (Approved (HEAD - 100)))
                0 "A" [(0, 100 * DOT)] HEAD) with Ok l => l | _ => [] end).
  split; [vm_compute; reflexivity|].
  apply (process_class_locks_intervals (one_vote_chain 6 (100 * DOT) (Approved (HEAD - 100)))
           0 "A" [(0, 100 * DOT)] HEAD).
  vm_compute. reflexivity.
Defined.

(** ** Bucket order *)

(** A later unlock never lands in an earlier bucket. *)
Theorem categorize_lock_period_monotone (now e1 e2 : Z) :
  e1 <= e2 ->
  category_rank (categorize_lock_period now e1) <= category_rank (categorize_lock_period now e2).
Proof.
  intro He. rewrite !categorize_floor_days. cbv zeta.
  assert (Hd : floor_days (e1 - now) <= floor_days (e2 - now)).
  { unfold floor_days. apply Z.div_le_mono; unfold SECS_PER_DAY, NANOS_PER_SEC; lia. }
  revert Hd. generalize (floor_days (e1 - now)) (floor_days (e2 - now)). intros d1 d2 Hd.
  destruct (Z.leb_spec d1 0), (Z.leb_spec d2 0); cbn [category_rank]; try lia;
  destruct (Z.leb_spec d1 7), (Z.leb_spec d2 7); cbn [category_rank]; try lia;
  destruct (Z.leb_spec d1 14), (Z.leb_spec d2 14); cbn [category_rank]; try lia;
  destruct (Z.leb_spec d1 28), (Z.leb_spec d2 28); cbn [category_rank]; try lia;
  destruct (Z.leb_spec d1 60), (Z.leb_spec d2 60); cbn [category_rank]; lia.
Qed.

Lemma categorize_lock_period_monotone_witness :
  day_ns 10 <= day_ns 100 /\
  category_rank (categorize_lock_period 0 (day_ns 10)) <=
  category_rank (categorize_lock_period 0 (day_ns 100)).
Proof.
  split; [unfold day_ns, dur_seconds, SECS_PER_DAY, NANOS_PER_SEC; lia|].
  apply categorize_lock_period_monotone.
  unfold day_ns, dur_seconds, SECS_PER_DAY, NANOS_PER_SEC; lia.
Defined.

(** ** Vesting *)

Lemma run_outcome_bind {A B} (m : M A) (f : A -> M B) :
  run_outcome (bind m f) =
  match run_outcome m with
  | Ok a => run_outcome (f a)
  | Err e => Err e
  | Panic p => Panic p
  end.
Proof. destruct m as [l [a|e|p]]; cbn; [destruct (f a)|..]; reflexivity. Qed.

Lemma vesting_loop_ok_iff (cur : Z) (infos : list VestingInfo) :
  run_outcome (vesting_loop cur infos) = Ok tt <-> Forall (fun v => per_block v <> 0) infos.
Proof.
  induction infos as [|v rest IH].
  - split; [constructor | reflexivity].
  - cbn [vesting_loop]. rewrite run_outcome_bind. unfold vesting_schedule.
    rewrite run_outcome_bind. unfold div_u128.
    destruct (Z.eqb_spec (per_block v) 0) as [E|E].
    + unfold panic; cbn [run_outcome snd]. split; [discriminate|].
      intro HF. inversion HF. contradiction.
    + unfold ret; cbn [run_outcome snd]. rewrite IH. split.
      * intro HF. constructor; assumption.
      * intro HF. inversion HF. assumption.
Qed.

(** Once the vesting read and the head succeed, printing the vesting
    schedules completes exactly when no schedule has a zero per-block
    rate; otherwise it panics. *)
Theorem display_vesting_info_ok_iff (chain : Chain) (key : AccountId32)
  (infos : list VestingInfo) (n : Z) :
  vesting_of chain key = ReadOk (Some infos) ->
  finalized_head chain = Ok (Some n) ->
  (run_outcome (display_vesting_info chain key) = Ok tt <->
   Forall (fun v => per_block v <> 0) infos) /\
  (run_outcome (display_vesting_info chain key) <> Ok tt ->
   run_outcome (display_vesting_info chain key) = Panic "attempt to divide by zero").
Proof.
  intros Hv Hh. unfold display_vesting_info, fetch_vesting, fetch.
  rewrite Hv, bind_ret_l, Hh. split; [apply vesting_loop_ok_iff|].
  intro Hne. clear Hv Hh. induction infos as [|v rest IH]; [contradiction|].
  cbn [vesting_loop] in *. rewrite run_outcome_bind in *. unfold vesting_schedule in *.
  rewrite run_outcome_bind in *. unfold div_u128 in *.
  destruct (per_block v =? 0); [reflexivity|].
  unfold ret in *; cbn [run_outcome snd] in *. exact (IH Hne).
Qed.

Lemma display_vesting_info_ok_iff_witness :
  vesting_of (vesting_chain [{| locked := 100 * DOT; per_block := DOT; starting_block := 0 |}])
    "A" = ReadOk (Some [{| locked := 100 * DOT; per_block := DOT; starting_block := 0 |}]) /\
  finalized_head (vesting_chain [{| locked := 100 * DOT; per_block := DOT; starting_block := 0 |}])
    = Ok (Some HEAD) /\
  run_outcome (display_vesting_info
    (vesting_chain [{| locked := 100 * DOT; per_block := DOT; starting_block := 0 |}]) "A")
    = Ok tt.
Proof.
  split; [reflexivity|]. split; [reflexivity|].
  apply (display_vesting_info_ok_iff
           (vesting_chain [{| locked := 100 * DOT; per_block := DOT; starting_block := 0 |}])
           "A" [{| locked := 100 * DOT; per_block := DOT; starting_block := 0 |}] HEAD
           eq_refl eq_refl).
  constructor; [cbn; unfold DOT; lia | constructor].
Defined.

(** The printed vesting start is the era's epoch plus [6 * starting_block]
    seconds, and the printed duration is [6 * total_blocks] seconds, each
    truncated down to a whole minute: less than a minute early, never late. *)
Theorem vesting_dates_within_a_minute (s t cur : Z) :
  0 <= s -> 0 <= t ->
  let base := dur_seconds (if s <? GENESIS_THRESHOLD then GENESIS_BLOCK1_EPOCH
                           else LATER_EPOCH) in
  let d := calculate_vesting_datetimes s t cur in
  0 <= base + dur_seconds (s * SECONDS_PER_BLOCK) - fst d < dur_seconds 60 /\
  0 <= dur_seconds (t * SECONDS_PER_BLOCK) - (snd d - fst d) < dur_seconds 60.
Proof.
  intros Hs Ht. cbv zeta. unfold calculate_vesting_datetimes. cbv zeta. cbn [fst snd].
  unfold dur_minutes, dur_seconds, SECONDS_PER_BLOCK, MINUTES_PER_HOUR, NANOS_PER_SEC.
  rewrite !Z.quot_div_nonneg by lia.
  pose proof (Z.div_mod (s * 6) 60 ltac:(lia)). pose proof (Z.mod_pos_bound (s * 6) 60 ltac:(lia)).
  pose proof (Z.div_mod (t * 6) 60 ltac:(lia)). pose proof (Z.mod_pos_bound (t * 6) 60 ltac:(lia)).
  destruct (s <? GENESIS_THRESHOLD); lia.
Qed.

Lemma vesting_dates_within_a_minute_witness :
  0 <= 9000001 /\ 0 <= 7 /\
  0 <= dur_seconds LATER_EPOCH + dur_seconds (9000001 * SECONDS_PER_BLOCK)
       - fst (calculate_vesting_datetimes 9000001 7 HEAD) < dur_seconds 60 /\
  0 <= dur_seconds (7 * SECONDS_PER_BLOCK)
       - (snd (calculate_vesting_datetimes 9000001 7 HEAD)
          - fst (calculate_vesting_datetimes 9000001 7 HEAD)) < dur_seconds 60.
Proof.
  split; [lia|]. split; [lia|].
  exact (vesting_dates_within_a_minute 9000001 7 HEAD ltac:(lia) ltac:(lia)).
Defined.

(** ** Accounts and the document *)

Lemma process_address_ok_shape (c : Chain) (now : Z) (address : string) (d : json) :
  run_outcome (process_address c now address) = Ok d ->
  parse_account c address <> None /\ account_address d = Some address.
Proof.
  unfold process_address. destruct (parse_account c address) as [k|]; [|discriminate].
  intro H.
  apply bind_ok_inv in H as [u1 [_ H]].
  apply bind_ok_inv in H as [u2 [_ H]].
  apply bind_ok_inv in H as [xr [_ H]].
  unfold ret, run_outcome in H. cbn [snd] in H. injection H as <-.
  split; [discriminate | reflexivity].
Qed.

Lemma process_addresses_ok (c : Chain) (now : Z) (addresses : list string)
  (acc out : list json) :
  run_outcome (process_addresses c now addresses acc) = Ok out ->
  exists fresh, out = acc ++ fresh /\
    map account_address fresh = map Some addresses /\
    Forall (fun a => parse_account c a <> None) addresses.
Proof.
  revert acc. induction addresses as [|a rest IH]; intros acc H.
  - cbn in H. injection H as <-. exists []. rewrite app_nil_r. auto.
  - cbn [process_addresses] in H.
    apply bind_ok_inv in H as [d [Hd H]].
    destruct (process_address_ok_shape c now a d Hd) as [Hp Ha].
    destruct (IH _ H) as [fresh [-> [Hm Hf]]].
    exists (d :: fresh). rewrite <- app_assoc. split; [reflexivity|].
    split; [cbn; rewrite Ha, Hm; reflexivity | constructor; assumption].
Qed.

(** A completed run lists one account per input address, in input order,
    and every input address parsed: an invalid address aborts the run. *)
Theorem main_document_accounts (c : Chain) (now : Z) (date : string)
  (addresses : list string) (j : json) :
  run_outcome (main_document c now date addresses) = Ok j ->
  exists accounts,
    j = JObj [("date"%string, JStr date); ("accounts"%string, JArr accounts)] /\
    map account_address accounts = map Some addresses /\
    Forall (fun a => parse_account c a <> None) addresses.
Proof.
  unfold main_document. intro H.
  apply bind_ok_inv in H as [accs [Ha H]].
  unfold ret, run_outcome in H. cbn [snd] in H. injection H as <-.
  destruct (process_addresses_ok c now addresses [] accs Ha) as [fresh [-> [Hm Hf]]].
  exists fresh. auto.
Qed.

Lemma main_document_accounts_witness :
  exists j,
    run_outcome (main_document quiet_chain 0 "2026-01-01" ["A"; "B"]%string) = Ok j /\
    exists accounts,
      j = JObj [("date"%string, JStr "2026-01-01"); ("accounts"%string, JArr accounts)] /\
      map account_address accounts = map Some ["A"; "B"]%string /\
      Forall (fun a => parse_account quiet_chain a <> None) ["A"; "B"]%string.
Proof.
  exists (match run_outcome (main_document quiet_chain 0 "2026-01-01" ["A"; "B"]%string) with
          | Ok j => j | _ => JNull end).
  split; [reflexivity|].
  apply (main_document_accounts quiet_chain 0 "2026-01-01" ["A"; "B"]%string). reflexivity.
Defined.

(** ** Address input *)

Lemma lines_acc_app (pending : list ascii) (l s : string) :
  ~ In "010"%char (list_ascii_of_string l) ->
  lines_acc pending (l ++ s) = lines_acc (rev (list_ascii_of_string l) ++ pending) s.
Proof.
  revert pending. induction l as [|c l IH]; intros pending Hl; [reflexivity|].
  cbn [append lines_acc list_ascii_of_string].
  destruct (Ascii.eqb_spec c "010"%char) as [->|Hc]; [exfalso; apply Hl; left; reflexivity|].
  rewrite IH by (intro Hin; apply Hl; right; exact Hin).
  cbn [rev]. rewrite <- app_assoc. reflexivity.
Qed.

(** Reading back lines typed one per line gives exactly the non-blank ones,
    in order and untrimmed: blank lines are dropped, surrounding spaces are
    kept as part of the address. *)
Theorem read_addresses_typed_lines (ls : list string) :
  Forall (fun l => ~ In "010"%char (list_ascii_of_string l) /\
                   hd_error (rev (list_ascii_of_string l)) <> Some "013"%char) ls ->
  read_addresses (typed_lines ls) = filter (fun s => negb (is_blank s)) ls.
Proof.
  unfold read_addresses, lines.
  induction 1 as [|l ls [Hnl Hcr] _ IH]; [reflexivity|].
  change (typed_lines (l :: ls)) with (l ++ String "010"%char (typed_lines ls))%string.
  rewrite lines_acc_app by exact Hnl.
  rewrite app_nil_r. cbn [lines_acc Ascii.eqb Bool.eqb].
  replace (strip_cr (rev (list_ascii_of_string l))) with (rev (list_ascii_of_string l)).
  - rewrite rev_involutive, string_of_list_ascii_of_string.
    cbn [filter]. rewrite IH. reflexivity.
  - unfold strip_cr. destruct (rev (list_ascii_of_string l)) as [|c t]; [reflexivity|].
    destruct (Ascii.eqb_spec c "013"%char) as [->|]; [contradiction Hcr; reflexivity|reflexivity].
Qed.

Lemma read_addresses_typed_lines_witness :
  Forall (fun l => ~ In "010"%char (list_ascii_of_string l) /\
                   hd_error (rev (list_ascii_of_string l)) <> Some "013"%char)
    [" A "; "   "; "B"]%string /\
  read_addresses (typed_lines [" A "; "   "; "B"]%string) = [" A "; "B"]%string.
Proof.
  assert (H : Forall (fun l => ~ In "010"%char (list_ascii_of_string l) /\
                   hd_error (rev (list_ascii_of_string l)) <> Some "013"%char)
    [" A "; "   "; "B"]%string).
  { repeat constructor; cbn; intuition discriminate. }
  split; [exact H|].
  rewrite (read_addresses_typed_lines _ H). reflexivity.
Defined.

(** ** Failures of the reads *)

(** A balance read whose storage fetch fails is reported twice, first by
    [fetch_account_balance] and then by [process_address]; one whose
    [at_latest()] step fails is reported once, by [process_address]. These
    lines come before anything else is logged. *)
Theorem balance_read_failure_logged (c : Chain) (now : Z) (address : string)
  (k e : string) :
  parse_account c address = Some k ->
  (balances_account c k = FetchErr e ->
   exists rest,
     run_log (process_address c now address) =
     ("[Error] Fetching failed for account balance: " ++ e)%string ::
     ("[Error] Failed to fetch balance: " ++ e)%string :: rest) /\
  (balances_account c k = AtLatestErr e ->
   exists rest,
     run_log (process_address c now address) =
     ("[Error] Failed to fetch balance: " ++ e)%string :: rest).
Proof.
  intros Hp. unfold process_address. rewrite Hp.
  unfold fetch_account_balance, fetch.
  split; intro Hb; rewrite Hb;
    unfold run_log, bind at 1; cbn [log throw bind log_if_err app];
    destruct (bind _ _) as [l r]; cbn [fst app]; eexists; reflexivity.
Qed.

Lemma balance_read_failure_logged_witness :
  parse_account (balance_failing_chain "timeout") "A" = Some "A"%string /\
  balances_account (balance_failing_chain "timeout") "A" = FetchErr "timeout" /\
  exists rest,
    run_log (process_address (balance_failing_chain "timeout") 0 "A") =
    ("[Error] Fetching failed for account balance: " ++ "timeout")%string ::
    ("[Error] Failed to fetch balance: " ++ "timeout")%string :: rest.
Proof.
  split; [reflexivity|]. split; [reflexivity|].
  apply (balance_read_failure_logged (balance_failing_chain "timeout") 0 "A" "A" "timeout");
    reflexivity.
Defined.

